(** * example/c/simple.c: a GLUT window driven through the glad loader

    The program keeps two process-wide integers ([width], [height]),
    registers a resize and a display callback with GLUT, loads the OpenGL
    entry points, checks one capability flag and enters the event loop.

    The embedding is a state-and-output monad: a computation maps the mutable
    state (the two globals and the part of the OpenGL context the program
    touches) to a result, a new state, and the list of events it emitted
    (each access to a global and each call of a collaborator, in program
    order).  Standard output is read off the emitted events. *)

From Stdlib Require Import ZArith QArith Qminmax String Ascii List Bool Lia.
From Stdlib Require Import DecimalString.
Import ListNotations.

Local Open Scope string_scope.
Local Open Scope list_scope.
Local Open Scope Z_scope.

(** ** Values passed around *)

(** The two globals of line 17. *)
Inductive var : Type := Width | Height.

(** An argument of a call of a collaborator.  C [int]s are [Z] (the program
    does no arithmetic that can leave the [int] range: it compares, divides
    by ten and takes remainders); [float] and [double] literals are the
    rationals their decimal text denotes. *)
Inductive arg : Type :=
| IntArg (z : Z)
| RealArg (q : Q)
| StrArg (s : string)
| FnArg (name : string).

Inductive event : Type :=
| Load (x : var) (v : Z)            (* a read of [width] or [height] *)
| Store (x : var) (v : Z)           (* a write of [width] or [height] *)
| ReadFlag (v : Z)                  (* a read of [GLAD_GL_VERSION_2_0] *)
| Call (fn : string) (args : list arg).

(** ** Constants of <GL/gl.h> and <GL/glut.h> used by the program *)

Module GLconst.
Definition GL_DEPTH_BUFFER_BIT : Z := 0x100.
Definition GL_COLOR_BUFFER_BIT : Z := 0x4000.
Definition GL_DEPTH_TEST : Z := 0x0B71.
Definition GL_VERSION : Z := 0x1F02.
Definition GL_SHADING_LANGUAGE_VERSION : Z := 0x8B8C.
Definition GLUT_RGBA : Z := 0.
Definition GLUT_DOUBLE : Z := 2.
Definition GLUT_DEPTH : Z := 16.
End GLconst.
Import GLconst.

(** ** The mutable state *)

(** The part of the OpenGL context the program sets. *)
Record gl_context : Type := mkContext {
  viewport : Z * Z * Z * Z;          (* x, y, width, height *)
  clear_depth : Q;
  clear_color : Q * Q * Q * Q;       (* red, green, blue, alpha *)
  depth_test : bool
}.

Record world : Type := mkWorld {
  width : Z;
  height : Z;
  gl : gl_context
}.

(** [static int width = 600, height = 600;] with the context the toolkit
    creates. *)
Definition initial_world (c : gl_context) : world :=
  {| width := 600; height := 600; gl := c |}.

(** ** The monad *)

Definition M (A : Type) : Type := world -> A * world * list event.

Definition ret {A} (a : A) : M A := fun st => (a, st, []).

Definition bind {A B} (m : M A) (k : A -> M B) : M B :=
  fun st =>
    let '(a, st1, t1) := m st in
    let '(b, st2, t2) := k a st1 in
    (b, st2, t1 ++ t2).

Notation "x <- m ;; k" := (bind m (fun x => k))
  (at level 61, m at next level, right associativity).
Notation "m ;; k" := (bind m (fun _ => k))
  (at level 61, right associativity).

Definition value {A} (r : A * world * list event) : A := fst (fst r).
Definition post {A} (r : A * world * list event) : world := snd (fst r).
Definition emitted {A} (r : A * world * list event) : list event := snd r.

Definition emit (e : event) : M unit := fun st => (tt, st, [e]).

Definition load (x : var) : M Z :=
  fun st =>
    let v := match x with Width => width st | Height => height st end in
    (v, st, [Load x v]).

Definition store (x : var) (v : Z) : M unit :=
  fun st =>
    let st' :=
      match x with
      | Width => {| width := v; height := height st; gl := gl st |}
      | Height => {| width := width st; height := v; gl := gl st |}
      end in
    (tt, st', [Store x v]).

Definition modify_gl (f : gl_context -> gl_context) : M unit :=
  fun st => (tt, {| width := width st; height := height st; gl := f (gl st) |}, []).

(** ** The OpenGL calls of the program

    Each call is logged with its arguments and updates the context as the
    OpenGL reference describes: [glViewport] rejects a negative width or
    height (GL_INVALID_VALUE, the viewport is left as it was), the clear
    values are clamped to the range 0..1, [glEnable] switches on a
    capability. *)

Definition clamp01 (q : Q) : Q := Qmax 0 (Qmin 1 q).

Definition glViewport (x y w h : Z) : M unit :=
  emit (Call "glViewport" [IntArg x; IntArg y; IntArg w; IntArg h]) ;;
  modify_gl (fun c =>
    if (w <? 0) || (h <? 0) then c
    else {| viewport := (x, y, w, h); clear_depth := clear_depth c;
            clear_color := clear_color c; depth_test := depth_test c |}).

Definition glClearDepth (d : Q) : M unit :=
  emit (Call "glClearDepth" [RealArg d]) ;;
  modify_gl (fun c =>
    {| viewport := viewport c; clear_depth := clamp01 d;
       clear_color := clear_color c; depth_test := depth_test c |}).

Definition glClearColor (r g b a : Q) : M unit :=
  emit (Call "glClearColor" [RealArg r; RealArg g; RealArg b; RealArg a]) ;;
  modify_gl (fun c =>
    {| viewport := viewport c; clear_depth := clear_depth c;
       clear_color := (clamp01 r, clamp01 g, clamp01 b, clamp01 a);
       depth_test := depth_test c |}).

Definition glEnable (cap : Z) : M unit :=
  emit (Call "glEnable" [IntArg cap]) ;;
  modify_gl (fun c =>
    if cap =? GL_DEPTH_TEST
    then {| viewport := viewport c; clear_depth := clear_depth c;
            clear_color := clear_color c; depth_test := true |}
    else c).

(** [glClear] fills the buffers; none of the context values above change. *)
Definition glClear (mask : Z) : M unit :=
  emit (Call "glClear" [IntArg mask]).

Definition glutSwapBuffers : M unit := emit (Call "glutSwapBuffers" []).
Definition glutPostRedisplay : M unit := emit (Call "glutPostRedisplay" []).

(** ** The callbacks (lines 19-35) *)

Definition display : M unit :=
  glClearColor 1.0 0.2 0.7 1.0 ;;
  glClear (Z.lor GL_COLOR_BUFFER_BIT GL_DEPTH_BUFFER_BIT) ;;
  glutSwapBuffers ;;
  glutPostRedisplay.

Definition reshape (w h : Z) : M unit :=
  store Width (if w >? 1 then w else 1) ;;
  store Height (if h >? 1 then h else 1) ;;
  wd <- load Width ;;
  ht <- load Height ;;
  glViewport 0 0 wd ht ;;
  glClearDepth 1.0 ;;
  glClearColor 0.0 0.0 0.0 0.0 ;;
  glEnable GL_DEPTH_TEST.

(** ** Standard output *)

(** The line feed the format strings end in. *)
Definition LF : string := String "010"%char EmptyString.

(** What [%d] prints for an [int]. *)
Definition fmt_d (z : Z) : string := NilZero.string_of_int (Z.to_int z).

(** [printf]'s formatting for the directives the program uses, [%d] and
    [%s].  Every call of the program passes arguments that match its
    directives; on a mismatch (undefined in C) formatting stops. *)
Fixpoint format (fmt : string) (args : list arg) : string :=
  match fmt with
  | EmptyString => EmptyString
  | String "%"%char (String "d"%char rest) =>
      match args with
      | IntArg z :: args' => (fmt_d z ++ format rest args')%string
      | _ => EmptyString
      end
  | String "%"%char (String "s"%char rest) =>
      match args with
      | StrArg s :: args' => (s ++ format rest args')%string
      | _ => EmptyString
      end
  | String c rest => String c (format rest args)
  end.

Definition printf (fmt : string) (args : list arg) : M unit :=
  emit (Call "printf" [StrArg (format fmt args)]).

(** The text written by an event, and by a run. *)
Definition written (e : event) : string :=
  match e with
  | Call "printf" [StrArg s] => s
  | _ => EmptyString
  end.

Definition stdout (t : list event) : string :=
  fold_right (fun e acc => (written e ++ acc)%string) EmptyString t.

(** ** The collaborators of [main] *)

(** What the run gets from outside: the loader's result, the capability flag
    the loader leaves in [GLAD_GL_VERSION_2_0], and the two strings of the
    driver. *)
Record env : Type := mkEnv {
  loader_version : Z;
  GLAD_GL_VERSION_2_0 : Z;
  gl_version_string : string;
  glsl_version_string : string
}.

(** An event the toolkit delivers inside [glutMainLoop]. *)
Inductive glut_event : Type :=
| Resized (w h : Z)
| Redisplay.

(** How control leaves [main], if it does. *)
Inductive outcome : Type :=
| Exited (status : Z)       (* [exit(status)] *)
| Returned (status : Z)     (* [return status] from [main] *)
| InEventLoop.              (* [glutMainLoop] is still dispatching *)

(** The status the parent process sees: the low eight bits. *)
Definition process_status (o : outcome) : option Z :=
  match o with
  | Exited s | Returned s => Some (Z.land s 255)
  | InEventLoop => None
  end.

Definition glutInit : M unit := emit (Call "glutInit" []).
Definition glutInitDisplayMode (mode : Z) : M unit :=
  emit (Call "glutInitDisplayMode" [IntArg mode]).
Definition glutInitWindowSize (w h : Z) : M unit :=
  emit (Call "glutInitWindowSize" [IntArg w; IntArg h]).
Definition glutCreateWindow (title : string) : M unit :=
  emit (Call "glutCreateWindow" [StrArg title]).
Definition glutReshapeFunc (f : string) : M unit :=
  emit (Call "glutReshapeFunc" [FnArg f]).
Definition glutDisplayFunc (f : string) : M unit :=
  emit (Call "glutDisplayFunc" [FnArg f]).

Definition gladLoadGLInternalLoader (e : env) : M Z :=
  emit (Call "gladLoadGLInternalLoader" []) ;;
  ret (loader_version e).

Definition read_GLAD_GL_VERSION_2_0 (e : env) : M Z :=
  emit (ReadFlag (GLAD_GL_VERSION_2_0 e)) ;;
  ret (GLAD_GL_VERSION_2_0 e).

Definition glGetString (e : env) (name : Z) : M string :=
  emit (Call "glGetString" [IntArg name]) ;;
  ret (if name =? GL_VERSION then gl_version_string e
       else if name =? GL_SHADING_LANGUAGE_VERSION then glsl_version_string e
       else EmptyString).

Definition exit (status : Z) : M outcome :=
  emit (Call "exit" [IntArg status]) ;;
  ret (Exited status).

(** The callbacks registered on lines 44 and 45 are the ones the loop
    calls. *)
Definition dispatch (ev : glut_event) : M unit :=
  match ev with
  | Resized w h => reshape w h
  | Redisplay => display
  end.

Fixpoint dispatch_all (evs : list glut_event) : M unit :=
  match evs with
  | [] => ret tt
  | ev :: evs' => dispatch ev ;; dispatch_all evs'
  end.

(** [glutMainLoop] does not return: after any finite run of events the
    program is still inside it (so the [return 0] of line 66 is never
    reached). *)
Definition glutMainLoop (evs : list glut_event) : M outcome :=
  emit (Call "glutMainLoop" []) ;;
  dispatch_all evs ;;
  ret InEventLoop.

(** ** [main] (lines 37-67)

    [evs] are the events the toolkit delivers, should the run reach the
    loop. *)
Definition main (e : env) (evs : list glut_event) : M outcome :=
  glutInit ;;
  glutInitDisplayMode (Z.lor (Z.lor GLUT_RGBA GLUT_DEPTH) GLUT_DOUBLE) ;;
  w0 <- load Width ;;
  h0 <- load Height ;;
  glutInitWindowSize w0 h0 ;;
  glutCreateWindow "cookie" ;;
  glutReshapeFunc "reshape" ;;
  glutDisplayFunc "display" ;;
  version <- gladLoadGLInternalLoader e ;;
  if version =? 0 then
    printf ("Something went wrong!" ++ LF) [] ;;
    exit (-1)
  else
    printf ("OpenGL %d.%d" ++ LF)
           [IntArg (Z.quot version 10); IntArg (Z.rem version 10)] ;;
    flag <- read_GLAD_GL_VERSION_2_0 e ;;
    if flag =? 0 then
      printf ("Your system doesn't support OpenGL >= 2!" ++ LF) [] ;;
      ret (Returned (-1))
    else
      v <- glGetString e GL_VERSION ;;
      s <- glGetString e GL_SHADING_LANGUAGE_VERSION ;;
      printf ("OpenGL %s, GLSL %s" ++ LF) [StrArg v; StrArg s] ;;
      glutMainLoop evs.

(** ** Vocabulary of the statements *)

(** The events of lines 39-48, up to and including the call of the loader,
    for the dimensions read on line 41. *)
Definition startup (w0 h0 : Z) : list event :=
  [ Call "glutInit" [];
    Call "glutInitDisplayMode" [IntArg (Z.lor (Z.lor GLUT_RGBA GLUT_DEPTH) GLUT_DOUBLE)];
    Load Width w0; Load Height h0;
    Call "glutInitWindowSize" [IntArg w0; IntArg h0];
    Call "glutCreateWindow" [StrArg "cookie"];
    Call "glutReshapeFunc" [FnArg "reshape"];
    Call "glutDisplayFunc" [FnArg "display"];
    Call "gladLoadGLInternalLoader" [] ].

(** The three diagnostics and the version line, as written to the output. *)
Definition loader_diagnostic : string := "Something went wrong!" ++ LF.
Definition capability_diagnostic : string :=
  "Your system doesn't support OpenGL >= 2!" ++ LF.
Definition version_line (version : Z) : string :=
  "OpenGL " ++ fmt_d (Z.quot version 10) ++ "." ++ fmt_d (Z.rem version 10) ++ LF.
Definition driver_line (e : env) : string :=
  "OpenGL " ++ gl_version_string e ++ ", GLSL " ++ glsl_version_string e ++ LF.

(** The globals a run reads and writes, in order. *)
Definition loads (t : list event) : list var :=
  flat_map (fun e => match e with Load x _ => [x] | _ => [] end) t.
Definition stores (t : list event) : list var :=
  flat_map (fun e => match e with Store x _ => [x] | _ => [] end) t.

(** The values the capability flag was read with. *)
Definition flag_reads (t : list event) : list Z :=
  flat_map (fun e => match e with ReadFlag v => [v] | _ => [] end) t.

(** The functions called, by name. *)
Definition calls (t : list event) : list string :=
  flat_map (fun e => match e with Call fn _ => [fn] | _ => [] end) t.

(** The globals [reshape] writes, and none for [display]. *)
Definition written_by (ev : glut_event) : list var :=
  match ev with
  | Resized _ _ => [Width; Height]
  | Redisplay => []
  end.

(** Both dimensions are at least 1. *)
Definition dims_ok (st : world) : Prop := 1 <= width st /\ 1 <= height st.

(** A write of a dimension writes at least 1. *)
Definition store_ok (e : event) : Prop :=
  match e with
  | Store _ v => 1 <= v
  | _ => True
  end.

(** The states the program passes through between two callbacks: the
    initial one, and the one after each callback the loop dispatches. *)
Inductive reachable (c : gl_context) : world -> Prop :=
| reach_initial : reachable c (initial_world c)
| reach_dispatch (ev : glut_event) (st : world) :
    reachable c st -> reachable c (post (dispatch ev st)).

(** Does the run reach [glutMainLoop]? *)
Definition reaches_loop (e : env) : bool :=
  negb (loader_version e =? 0) && negb (GLAD_GL_VERSION_2_0 e =? 0).

(** ** Sample inputs *)

Definition default_context : gl_context :=
  {| viewport := (0, 0, 600, 600); clear_depth := 1;
     clear_color := (0%Q, 0%Q, 0%Q, 0%Q); depth_test := false |}.

(** OpenGL 3.3 with the 2.0 capability. *)
Definition env_gl33 : env :=
  {| loader_version := 33; GLAD_GL_VERSION_2_0 := 1;
     gl_version_string := "3.3.0"; glsl_version_string := "3.30" |}.

(** OpenGL 1.5: loaded, without the 2.0 capability. *)
Definition env_gl15 : env :=
  {| loader_version := 15; GLAD_GL_VERSION_2_0 := 0;
     gl_version_string := "1.5.0"; glsl_version_string := "" |}.

(** No OpenGL could be loaded. *)
Definition env_no_gl : env :=
  {| loader_version := 0; GLAD_GL_VERSION_2_0 := 0;
     gl_version_string := ""; glsl_version_string := "" |}.

(** ** Vocabulary for whole runs *)

(** The name of an OpenGL entry point, called through a pointer the loader
    fills in: "gl" followed by a capital letter (so neither "glut..." nor
    "glad..."). *)
Definition is_gl_function (fn : string) : bool :=
  match fn with
  | String "g"%char (String "l"%char (String c _)) =>
      (Ascii.leb "A"%char c && Ascii.leb c "Z"%char)%bool
  | _ => false
  end.

Definition gl_calls (t : list event) : list string :=
  filter is_gl_function (calls t).

(** How often a function is called. *)
Definition count_calls (fn : string) (t : list event) : nat :=
  length (filter (String.eqb fn) (calls t)).

(** The number of display events among the events delivered. *)
Definition redisplays (evs : list glut_event) : nat :=
  length (filter (fun ev => match ev with Redisplay => true | _ => false end) evs).

(** The arguments of the last resize event delivered, if there is one. *)
Fixpoint last_resize (evs : list glut_event) : option (Z * Z) :=
  match evs with
  | [] => None
  | ev :: evs' =>
      match last_resize evs' with
      | Some d => Some d
      | None =>
          match ev with
          | Resized w h => Some (w, h)
          | Redisplay => None
          end
      end
  end.

(** The events a run dispatches: those delivered if it reaches the loop,
    none otherwise. *)
Definition dispatched (e : env) (evs : list glut_event) : list glut_event :=
  if reaches_loop e then evs else [].

(** The whole output of a run, from what the loader and the driver
    report. *)
Definition program_output (e : env) : string :=
  if loader_version e =? 0 then loader_diagnostic
  else if GLAD_GL_VERSION_2_0 e =? 0
       then (version_line (loader_version e) ++ capability_diagnostic)%string
       else (version_line (loader_version e) ++ driver_line e)%string.

(** The context agrees with the stored dimensions and has the values
    [reshape] sets. *)
Definition context_coherent (st : world) : Prop :=
  viewport (gl st) = (0, 0, width st, height st) /\
  depth_test (gl st) = true /\
  (clear_depth (gl st) == 1)%Q.

(** The call by which [display] selects its clear color (line 21). *)
Definition display_clear_color : event :=
  Call "glClearColor" [RealArg 1.0; RealArg 0.2; RealArg 0.7; RealArg 1.0].

Definition is_call (fn : string) (e : event) : Prop :=
  match e with
  | Call f _ => f = fn
  | _ => False
  end.

(** Every [glClear] of the log comes right after [display]'s choice of
    clear color; [prev] is the event before the log, if any. *)
Fixpoint clears_follow_color (prev : option event) (t : list event) : Prop :=
  match t with
  | [] => True
  | e :: t' =>
      (is_call "glClear" e -> prev = Some display_clear_color) /\
      clears_follow_color (Some e) t'
  end.

(** A call of [glViewport] asks for a rectangle at the origin with a
    width and a height of at least 1. *)
Definition viewport_call_ok (e : event) : Prop :=
  match e with
  | Call fn args =>
      fn = "glViewport" ->
      exists w h, args = [IntArg 0; IntArg 0; IntArg w; IntArg h] /\ 1 <= w /\ 1 <= h
  | _ => True
  end.

(** The functions each callback calls, in order. *)
Definition callback_calls (ev : glut_event) : list string :=
  match ev with
  | Resized _ _ => ["glViewport"; "glClearDepth"; "glClearColor"; "glEnable"]
  | Redisplay => ["glClearColor"; "glClear"; "glutSwapBuffers"; "glutPostRedisplay"]
  end.

(** Two colors with equal components. *)
Definition color_eq (a b : Q * Q * Q * Q) : Prop :=
  let '(r1, g1, b1, a1) := a in
  let '(r2, g2, b2, a2) := b in
  (r1 == r2 /\ g1 == g2 /\ b1 == b2 /\ a1 == a2)%Q.

(** * Properties *)

(** ** The callbacks *)

Section Callbacks.

Variables (w h : Z) (st : world).

Lemma clamp_is_max (z : Z) : (if z >? 1 then z else 1) = Z.max z 1.
Proof. destruct (Z.gtb_spec z 1); lia. Qed.

Lemma clamp_not_negative (a b : Z) :
  (Z.max a 1 <? 0) || (Z.max b 1 <? 0) = false.
Proof.
  apply orb_false_iff; split; apply Z.ltb_ge; lia.
Qed.

(** The state [reshape] leaves, whatever the state it started from. *)
Lemma reshape_post :
  post (reshape w h st) =
  {| width := Z.max w 1;
     height := Z.max h 1;
     gl := {| viewport := (0, 0, Z.max w 1, Z.max h 1);
              clear_depth := clamp01 1.0;
              clear_color := (clamp01 0.0, clamp01 0.0, clamp01 0.0, clamp01 0.0);
              depth_test := true |} |}.
Proof.
  unfold reshape, post, bind, store, load, glViewport, glClearDepth,
    glClearColor, glEnable, emit, modify_gl; cbn.
  rewrite !clamp_is_max, clamp_not_negative. reflexivity.
Qed.

(** What [reshape] does, in order. *)
Lemma reshape_emitted :
  emitted (reshape w h st) =
  [ Store Width (Z.max w 1); Store Height (Z.max h 1);
    Load Width (Z.max w 1); Load Height (Z.max h 1);
    Call "glViewport" [IntArg 0; IntArg 0; IntArg (Z.max w 1); IntArg (Z.max h 1)];
    Call "glClearDepth" [RealArg 1.0];
    Call "glClearColor" [RealArg 0.0; RealArg 0.0; RealArg 0.0; RealArg 0.0];
    Call "glEnable" [IntArg GL_DEPTH_TEST] ].
Proof.
  unfold reshape, emitted, bind, store, load, glViewport, glClearDepth,
    glClearColor, glEnable, emit, modify_gl; cbn.
  rewrite !clamp_is_max. reflexivity.
Qed.

Lemma display_post :
  post (display st) =
  {| width := width st;
     height := height st;
     gl := {| viewport := viewport (gl st);
              clear_depth := clear_depth (gl st);
              clear_color := (clamp01 1.0, clamp01 0.2, clamp01 0.7, clamp01 1.0);
              depth_test := depth_test (gl st) |} |}.
Proof. reflexivity. Qed.

Lemma display_emitted :
  emitted (display st) =
  [ Call "glClearColor" [RealArg 1.0; RealArg 0.2; RealArg 0.7; RealArg 1.0];
    Call "glClear" [IntArg (Z.lor GL_COLOR_BUFFER_BIT GL_DEPTH_BUFFER_BIT)];
    Call "glutSwapBuffers" []; Call "glutPostRedisplay" [] ].
Proof. reflexivity. Qed.

End Callbacks.

(** C1. For every pair of integers (w, h), [reshape w h] stores w clamped to
    a minimum of 1 as the width and h clamped to a minimum of 1 as the
    height: for w >= 1 the stored width is w, for w <= 0 it is 1, and the
    same for h and the height. *)
Theorem reshape_stores_clamped_dimensions :
  forall (w h : Z) (st : world),
    let st' := post (reshape w h st) in
    width st' = Z.max w 1 /\ height st' = Z.max h 1 /\
    (1 <= w -> width st' = w) /\ (1 <= h -> height st' = h) /\
    (w <= 0 -> width st' = 1) /\ (h <= 0 -> height st' = 1).
Proof.
  intros w h st st'. subst st'. rewrite reshape_post. cbn [width height].
  repeat split; lia.
Qed.

(** C7. For every input (w, h) and every prior state, [reshape w h] sets the
    viewport to the clamped dimensions, the clear depth to 1.0, the clear
    color to transparent black (0, 0, 0, 0), and enables depth testing. *)
Theorem reshape_sets_context :
  forall (w h : Z) (st : world),
    let c := gl (post (reshape w h st)) in
    viewport c = (0, 0, Z.max w 1, Z.max h 1) /\
    (clear_depth c == 1)%Q /\
    (let '(r, g, b, a) := clear_color c in
     r == 0 /\ g == 0 /\ b == 0 /\ a == 0)%Q /\
    depth_test c = true /\
    viewport c = (0, 0, width (post (reshape w h st)), height (post (reshape w h st))).
Proof.
  intros w h st c. subst c. rewrite reshape_post. cbn.
  repeat split; reflexivity.
Qed.

(** C9. The display callback leaves the stored width and height as they
    were. *)
Theorem display_keeps_dimensions :
  forall st : world,
    width (post (display st)) = width st /\
    height (post (display st)) = height st.
Proof. intros st. rewrite display_post. split; reflexivity. Qed.

(** C10. The stored width and height after [reshape w h] depend on (w, h)
    alone, not on the state before the call; so does the whole state, and
    running the callback a second time with the same arguments changes
    nothing. *)
Theorem reshape_depends_on_arguments_only :
  forall (w h : Z) (st1 st2 : world),
    width (post (reshape w h st1)) = width (post (reshape w h st2)) /\
    height (post (reshape w h st1)) = height (post (reshape w h st2)) /\
    post (reshape w h st1) = post (reshape w h st2) /\
    post (reshape w h (post (reshape w h st1))) = post (reshape w h st1).
Proof.
  intros w h st1 st2. rewrite !reshape_post. repeat split; reflexivity.
Qed.

(** ** Runs of [main] *)

Lemma append_assoc (a b c : string) : ((a ++ b) ++ c)%string = (a ++ (b ++ c))%string.
Proof. induction a as [|x a IH]; cbn; [reflexivity | now rewrite IH]. Qed.

Lemma stdout_app (t1 t2 : list event) :
  stdout (t1 ++ t2) = (stdout t1 ++ stdout t2)%string.
Proof.
  unfold stdout. induction t1 as [|e t1 IH]; cbn [app fold_right]; [reflexivity|].
  now rewrite IH, append_assoc.
Qed.

Lemma post_bind {A B} (m : M A) (k : A -> M B) (st : world) :
  post (bind m k st) = post (k (value (m st)) (post (m st))).
Proof.
  unfold bind, post, value. destruct (m st) as [[a st1] t1]. cbn.
  destruct (k a st1) as [[b st2] t2]. reflexivity.
Qed.

Lemma emitted_bind {A B} (m : M A) (k : A -> M B) (st : world) :
  emitted (bind m k st) = emitted (m st) ++ emitted (k (value (m st)) (post (m st))).
Proof.
  unfold bind, post, value, emitted. destruct (m st) as [[a st1] t1]. cbn.
  destruct (k a st1) as [[b st2] t2]. reflexivity.
Qed.

Lemma dispatch_all_cons_post (ev : glut_event) (evs : list glut_event) (st : world) :
  post (dispatch_all (ev :: evs) st) = post (dispatch_all evs (post (dispatch ev st))).
Proof. cbn [dispatch_all]. now rewrite post_bind. Qed.

Lemma dispatch_all_cons_emitted (ev : glut_event) (evs : list glut_event) (st : world) :
  emitted (dispatch_all (ev :: evs) st) =
  emitted (dispatch ev st) ++ emitted (dispatch_all evs (post (dispatch ev st))).
Proof. cbn [dispatch_all]. now rewrite emitted_bind. Qed.

(** [main], path by path. *)
Lemma main_loader_failure (e : env) (evs : list glut_event) (st : world) :
  loader_version e = 0 ->
  main e evs st =
  (Exited (-1), st,
   startup (width st) (height st) ++
   [Call "printf" [StrArg loader_diagnostic]; Call "exit" [IntArg (-1)]]).
Proof.
  intros Hv. unfold main, bind; cbn. rewrite Hv; cbn. reflexivity.
Qed.

Lemma main_capability_failure (e : env) (evs : list glut_event) (st : world) :
  loader_version e <> 0 ->
  GLAD_GL_VERSION_2_0 e = 0 ->
  main e evs st =
  (Returned (-1), st,
   startup (width st) (height st) ++
   [Call "printf" [StrArg (version_line (loader_version e))];
    ReadFlag 0;
    Call "printf" [StrArg capability_diagnostic]]).
Proof.
  intros Hv Hf. apply Z.eqb_neq in Hv.
  unfold main, bind; cbn. rewrite Hv; cbn. rewrite Hf; cbn. reflexivity.
Qed.

Lemma main_success (e : env) (evs : list glut_event) (st : world) :
  loader_version e <> 0 ->
  GLAD_GL_VERSION_2_0 e <> 0 ->
  main e evs st =
  (InEventLoop, post (dispatch_all evs st),
   startup (width st) (height st) ++
   [Call "printf" [StrArg (version_line (loader_version e))];
    ReadFlag (GLAD_GL_VERSION_2_0 e);
    Call "glGetString" [IntArg GL_VERSION];
    Call "glGetString" [IntArg GL_SHADING_LANGUAGE_VERSION];
    Call "printf" [StrArg (driver_line e)];
    Call "glutMainLoop" []] ++
   emitted (dispatch_all evs st)).
Proof.
  intros Hv Hf. apply Z.eqb_neq in Hv, Hf.
  unfold main, glutMainLoop, bind; cbn. rewrite Hv; cbn. rewrite Hf; cbn.
  unfold post, emitted. destruct (dispatch_all evs st) as [[[] st'] t]; cbn.
  rewrite app_nil_r. reflexivity.
Qed.

(** ** The event loop *)

Lemma dispatch_dims_ok (ev : glut_event) (st : world) :
  dims_ok st -> dims_ok (post (dispatch ev st)).
Proof.
  intros [Hw Hh]. destruct ev as [w h|]; cbn [dispatch].
  - rewrite reshape_post. split; cbn; lia.
  - rewrite display_post. split; cbn; assumption.
Qed.

Lemma dispatch_all_dims_ok (evs : list glut_event) :
  forall st, dims_ok st -> dims_ok (post (dispatch_all evs st)).
Proof.
  induction evs as [|ev evs IH]; intros st Hst.
  - exact Hst.
  - rewrite dispatch_all_cons_post. now apply IH, dispatch_dims_ok.
Qed.

Lemma reachable_dims_ok (c : gl_context) (st : world) :
  reachable c st -> dims_ok st.
Proof.
  induction 1 as [|ev st _ IH].
  - split; cbn; lia.
  - now apply dispatch_dims_ok.
Qed.

Lemma dispatch_all_reachable (c : gl_context) (evs : list glut_event) :
  forall st, reachable c st -> reachable c (post (dispatch_all evs st)).
Proof.
  induction evs as [|ev evs IH]; intros st Hst.
  - exact Hst.
  - rewrite dispatch_all_cons_post. apply IH. now constructor.
Qed.

Lemma dispatch_store_ok (ev : glut_event) (st : world) :
  Forall store_ok (emitted (dispatch ev st)).
Proof.
  destruct ev as [w h|]; cbn [dispatch].
  - rewrite reshape_emitted. repeat constructor; cbn; lia.
  - rewrite display_emitted. repeat constructor.
Qed.

Lemma dispatch_all_store_ok (evs : list glut_event) :
  forall st, Forall store_ok (emitted (dispatch_all evs st)).
Proof.
  induction evs as [|ev evs IH]; intros st.
  - constructor.
  - rewrite dispatch_all_cons_emitted. apply Forall_app. split.
    + apply dispatch_store_ok.
    + apply IH.
Qed.

(** Projections of a log of the loop, callback by callback. *)
Section LoopLog.

Variables (B : Type) (f : event -> list B) (g : glut_event -> list B).
Hypothesis per_callback :
  forall ev st, flat_map f (emitted (dispatch ev st)) = g ev.

Lemma dispatch_all_flat_map (evs : list glut_event) :
  forall st, flat_map f (emitted (dispatch_all evs st)) = flat_map g evs.
Proof.
  induction evs as [|ev evs IH]; intros st.
  - reflexivity.
  - rewrite dispatch_all_cons_emitted, flat_map_app, per_callback, IH.
    reflexivity.
Qed.

End LoopLog.

Lemma dispatch_all_stores (evs : list glut_event) (st : world) :
  stores (emitted (dispatch_all evs st)) = flat_map written_by evs.
Proof.
  apply dispatch_all_flat_map. intros [w h|] st'; cbn [dispatch].
  - now rewrite reshape_emitted.
  - now rewrite display_emitted.
Qed.

Lemma dispatch_all_loads (evs : list glut_event) (st : world) :
  loads (emitted (dispatch_all evs st)) = flat_map written_by evs.
Proof.
  apply dispatch_all_flat_map. intros [w h|] st'; cbn [dispatch].
  - now rewrite reshape_emitted.
  - now rewrite display_emitted.
Qed.

Lemma dispatch_all_silent (evs : list glut_event) :
  forall st, stdout (emitted (dispatch_all evs st)) = EmptyString.
Proof.
  induction evs as [|ev evs IH]; intros st.
  - reflexivity.
  - rewrite dispatch_all_cons_emitted, stdout_app, IH.
    destruct ev as [w h|]; cbn [dispatch].
    + now rewrite reshape_emitted.
    + now rewrite display_emitted.
Qed.

Lemma reaches_loop_cases (e : env) :
  (loader_version e = 0 /\ reaches_loop e = false) \/
  (loader_version e <> 0 /\ GLAD_GL_VERSION_2_0 e = 0 /\ reaches_loop e = false) \/
  (loader_version e <> 0 /\ GLAD_GL_VERSION_2_0 e <> 0 /\ reaches_loop e = true).
Proof.
  unfold reaches_loop.
  destruct (Z.eqb_spec (loader_version e) 0) as [Hv|Hv];
    destruct (Z.eqb_spec (GLAD_GL_VERSION_2_0 e) 0) as [Hf|Hf]; cbn; auto.
Qed.

Lemma append_nil_r (a : string) : (a ++ "")%string = a.
Proof. induction a as [|x a IH]; cbn; [reflexivity | now rewrite IH]. Qed.

Lemma stdout_loader_failure (w0 h0 : Z) :
  stdout (startup w0 h0 ++
          [Call "printf" [StrArg loader_diagnostic]; Call "exit" [IntArg (-1)]]) =
  loader_diagnostic.
Proof. reflexivity. Qed.

Lemma stdout_capability_failure (w0 h0 version : Z) :
  stdout (startup w0 h0 ++
          [Call "printf" [StrArg (version_line version)]; ReadFlag 0;
           Call "printf" [StrArg capability_diagnostic]]) =
  (version_line version ++ capability_diagnostic)%string.
Proof. reflexivity. Qed.

Lemma stdout_success (e : env) (evs : list glut_event) (st : world) :
  loader_version e <> 0 ->
  GLAD_GL_VERSION_2_0 e <> 0 ->
  stdout (emitted (main e evs st)) =
  (version_line (loader_version e) ++ driver_line e)%string.
Proof.
  intros Hv Hf. rewrite main_success by assumption.
  unfold emitted at 1; cbn [snd].
  rewrite !stdout_app, dispatch_all_silent.
  cbn [stdout startup fold_right written app].
  cbn [append]. now rewrite !append_nil_r.
Qed.

(** ** Start-up errors *)

(** C2. When the loader returns version 0 the program prints
    "Something went wrong!" and ends through [exit(-1)], a nonzero status,
    and the capability flag is not read at any point of the run. *)
Theorem loader_failure_exits :
  forall (e : env) (evs : list glut_event) (c : gl_context),
    loader_version e = 0 ->
    let r := main e evs (initial_world c) in
    value r = Exited (-1) /\
    process_status (value r) = Some 255 /\
    stdout (emitted r) = ("Something went wrong!" ++ LF)%string /\
    flag_reads (emitted r) = [] /\
    emitted r =
      startup 600 600 ++
      [Call "printf" [StrArg ("Something went wrong!" ++ LF)];
       Call "exit" [IntArg (-1)]].
Proof.
  intros e evs c Hv r. subst r. rewrite main_loader_failure by exact Hv.
  repeat split.
Qed.

Lemma loader_failure_exits_witness :
  let r := main env_no_gl [Resized 800 600; Redisplay] (initial_world default_context) in
  loader_version env_no_gl = 0 /\
  value r = Exited (-1) /\
  stdout (emitted r) = ("Something went wrong!" ++ LF)%string.
Proof.
  split; [reflexivity|].
  pose proof (loader_failure_exits env_no_gl [Resized 800 600; Redisplay]
                default_context eq_refl) as H.
  split; apply H.
Defined.

(** C3. When the loader succeeds but the 2.0 capability flag is false the
    program prints "Your system doesn't support OpenGL >= 2!" and returns
    -1 from [main]: a nonzero status, by a normal return (no [exit]), and
    the event loop is not entered (no callback has run). *)
Theorem capability_failure_returns :
  forall (e : env) (evs : list glut_event) (c : gl_context),
    loader_version e <> 0 ->
    GLAD_GL_VERSION_2_0 e = 0 ->
    let r := main e evs (initial_world c) in
    value r = Returned (-1) /\
    process_status (value r) = Some 255 /\
    stdout (emitted r) =
      (version_line (loader_version e) ++
       "Your system doesn't support OpenGL >= 2!" ++ LF)%string /\
    ~ In "exit" (calls (emitted r)) /\
    ~ In "glutMainLoop" (calls (emitted r)) /\
    post r = initial_world c.
Proof.
  intros e evs c Hv Hf r. subst r.
  rewrite main_capability_failure by assumption.
  repeat split; cbn; intuition discriminate.
Qed.

Lemma capability_failure_returns_witness :
  let r := main env_gl15 [Resized 800 600; Redisplay] (initial_world default_context) in
  value r = Returned (-1) /\
  stdout (emitted r) =
    ("OpenGL 1.5" ++ LF ++ "Your system doesn't support OpenGL >= 2!" ++ LF)%string /\
  ~ In "glutMainLoop" (calls (emitted r)).
Proof.
  assert (Hv : loader_version env_gl15 <> 0) by discriminate.
  pose proof (capability_failure_returns env_gl15 [Resized 800 600; Redisplay]
                default_context Hv eq_refl) as H.
  repeat split; apply H.
Defined.

(** ** The version lines *)

(** C4, as the claim states it, fails: with OpenGL 1.5 loaded and the 2.0
    capability missing, the run fails the capability check and its output
    starts with the version line "OpenGL 1.5"; it is not the capability
    diagnostic alone. *)
Lemma version_line_printed_on_capability_failure :
  let r := main env_gl15 [] (initial_world default_context) in
  GLAD_GL_VERSION_2_0 env_gl15 = 0 /\
  value r = Returned (-1) /\
  stdout (emitted r) =
    ("OpenGL 1.5" ++ LF ++ "Your system doesn't support OpenGL >= 2!" ++ LF)%string /\
  stdout (emitted r) <> ("Your system doesn't support OpenGL >= 2!" ++ LF)%string.
Proof.
  cbv zeta. repeat split. discriminate.
Qed.

(** C4, amended. The version line "OpenGL <major>.<minor>" is printed on
    every run in which the loader succeeds, before the capability flag is
    read and whether or not the check passes: a run that fails the check
    emits the version line followed by the capability diagnostic, a run
    that passes it emits the version line followed by the line of the
    driver's strings. *)
Theorem version_line_printed_after_load :
  forall (e : env) (evs : list glut_event) (c : gl_context),
    loader_version e <> 0 ->
    let r := main e evs (initial_world c) in
    (exists rest,
       emitted r =
         startup 600 600 ++
         Call "printf" [StrArg (version_line (loader_version e))] ::
         ReadFlag (GLAD_GL_VERSION_2_0 e) :: rest) /\
    (GLAD_GL_VERSION_2_0 e = 0 ->
       stdout (emitted r) =
         (version_line (loader_version e) ++
          "Your system doesn't support OpenGL >= 2!" ++ LF)%string) /\
    (GLAD_GL_VERSION_2_0 e <> 0 ->
       stdout (emitted r) =
         (version_line (loader_version e) ++ driver_line e)%string).
Proof.
  intros e evs c Hv r. subst r. split; [|split].
  - destruct (Z.eq_dec (GLAD_GL_VERSION_2_0 e) 0) as [Hf|Hf].
    + rewrite main_capability_failure by assumption. rewrite Hf.
      eexists. reflexivity.
    + rewrite main_success by assumption. eexists. reflexivity.
  - intros Hf. rewrite main_capability_failure by assumption. reflexivity.
  - intros Hf. now apply stdout_success.
Qed.

Lemma version_line_printed_after_load_witness :
  stdout (emitted (main env_gl15 [] (initial_world default_context))) =
    ("OpenGL 1.5" ++ LF ++ "Your system doesn't support OpenGL >= 2!" ++ LF)%string.
Proof.
  assert (Hv : loader_version env_gl15 <> 0) by discriminate.
  apply (version_line_printed_after_load env_gl15 [] default_context Hv).
  reflexivity.
Defined.

(** C8. On a successful run the first line of output is the encoded
    version formatted as "OpenGL %d.%d", the first number being the version
    divided by 10 and the second its remainder modulo 10; the line of the
    driver's strings follows. *)
Theorem version_line_format :
  forall (e : env) (evs : list glut_event) (c : gl_context),
    loader_version e <> 0 ->
    GLAD_GL_VERSION_2_0 e <> 0 ->
    stdout (emitted (main e evs (initial_world c))) =
    (("OpenGL " ++ fmt_d (Z.quot (loader_version e) 10) ++ "." ++
      fmt_d (Z.rem (loader_version e) 10) ++ LF) ++
     "OpenGL " ++ gl_version_string e ++ ", GLSL " ++ glsl_version_string e ++ LF)%string.
Proof.
  intros e evs c Hv Hf. now apply stdout_success.
Qed.

(** Encoded 33 produces "OpenGL 3.3". *)
Lemma version_line_format_witness :
  stdout (emitted (main env_gl33 [Resized 800 600; Redisplay]
                     (initial_world default_context))) =
  ("OpenGL 3.3" ++ LF ++ "OpenGL 3.3.0, GLSL 3.30" ++ LF)%string.
Proof.
  assert (Hv : loader_version env_gl33 <> 0) by discriminate.
  assert (Hf : GLAD_GL_VERSION_2_0 env_gl33 <> 0) by discriminate.
  exact (version_line_format env_gl33 [Resized 800 600; Redisplay]
           default_context Hv Hf).
Defined.

(** The loader's encoding, major * 10 + minor, is undone by the quotient
    and the remainder the version line prints. *)
Lemma version_line_decodes (major minor : Z) :
  0 <= major -> 0 <= minor < 10 ->
  version_line (major * 10 + minor) =
  ("OpenGL " ++ fmt_d major ++ "." ++ fmt_d minor ++ LF)%string.
Proof.
  intros Hmaj Hmin. unfold version_line.
  rewrite Z.quot_div_nonneg, Z.rem_mod_nonneg by lia.
  rewrite Z.add_comm, Z.div_add, Z.mod_add by lia.
  rewrite Z.div_small, Z.mod_small by lia.
  reflexivity.
Qed.

(** ** The stored dimensions *)

(** C5, as the claim states it, fails: [main] itself, before the loop has
    called any callback, reads both [width] and [height] and hands them to
    [glutInitWindowSize]. *)
Lemma main_reads_dimensions :
  let r := main env_gl33 [] (initial_world default_context) in
  loads (emitted r) = [Width; Height] /\
  In (Load Width 600) (emitted r) /\
  In (Load Height 600) (emitted r) /\
  In (Call "glutInitWindowSize" [IntArg 600; IntArg 600]) (emitted r).
Proof.
  cbv zeta. split; [reflexivity|]. cbn. tauto.
Qed.

(** C5, amended. The stored width and height are written only by the
    resize callback; they are read by the resize callback (for the
    viewport) and by [main], once each, for the initial window size; the
    display callback neither reads nor writes them.  Over a whole run the
    writes are those of the resize events the loop dispatched. *)
Theorem dimension_accesses :
  forall (e : env) (evs : list glut_event) (w h : Z) (st : world),
    stores (emitted (reshape w h st)) = [Width; Height] /\
    loads (emitted (reshape w h st)) = [Width; Height] /\
    stores (emitted (display st)) = [] /\
    loads (emitted (display st)) = [] /\
    stores (emitted (main e [] st)) = [] /\
    loads (emitted (main e [] st)) = [Width; Height] /\
    stores (emitted (main e evs st)) =
      (if reaches_loop e then flat_map written_by evs else []) /\
    loads (emitted (main e evs st)) =
      [Width; Height] ++ (if reaches_loop e then flat_map written_by evs else []).
Proof.
  intros e evs w h st.
  rewrite reshape_emitted, display_emitted.
  assert (Hrun : forall l,
    stores (emitted (main e l st)) =
      (if reaches_loop e then flat_map written_by l else []) /\
    loads (emitted (main e l st)) =
      [Width; Height] ++ (if reaches_loop e then flat_map written_by l else [])).
  { intros l.
    destruct (reaches_loop_cases e) as [[Hv ->]|[[Hv [Hf ->]]|[Hv [Hf ->]]]].
    - rewrite main_loader_failure by assumption. split; reflexivity.
    - rewrite main_capability_failure by assumption. split; reflexivity.
    - rewrite main_success by assumption. unfold emitted at 1 3; cbn [snd].
      unfold stores at 1, loads at 1. rewrite !flat_map_app.
      fold (stores (emitted (dispatch_all l st))).
      fold (loads (emitted (dispatch_all l st))).
      rewrite dispatch_all_stores, dispatch_all_loads. split; reflexivity. }
  destruct (Hrun evs) as [Hs Hl]. destruct (Hrun []) as [Hs0 Hl0].
  rewrite Hs, Hl, Hs0, Hl0.
  destruct (reaches_loop e); repeat split; reflexivity.
Qed.

Lemma main_dims_ok (e : env) (evs : list glut_event) (st : world) :
  dims_ok st -> dims_ok (post (main e evs st)).
Proof.
  intros Hst.
  destruct (reaches_loop_cases e) as [[Hv _]|[[Hv [Hf _]]|[Hv [Hf _]]]].
  - now rewrite main_loader_failure.
  - now rewrite main_capability_failure.
  - rewrite main_success by assumption. now apply dispatch_all_dims_ok.
Qed.

Lemma main_store_ok (e : env) (evs : list glut_event) (st : world) :
  Forall store_ok (emitted (main e evs st)).
Proof.
  destruct (reaches_loop_cases e) as [[Hv _]|[[Hv [Hf _]]|[Hv [Hf _]]]].
  - rewrite main_loader_failure by assumption. repeat constructor.
  - rewrite main_capability_failure by assumption. repeat constructor.
  - rewrite main_success by assumption. unfold emitted at 1; cbn [snd].
    rewrite !Forall_app. repeat split; try (repeat constructor).
    apply dispatch_all_store_ok.
Qed.

(** C6. Width and height are at least 1 at all times: the initial values
    are (600 and 600); [reshape], [display] and [main] each keep them so;
    so is every state the program reaches; and every write of a dimension
    during a run writes a value that is at least 1. *)
Theorem dimensions_always_positive :
  forall (e : env) (evs : list glut_event) (c : gl_context),
    dims_ok (initial_world c) /\
    (forall w h st, dims_ok st -> dims_ok (post (reshape w h st))) /\
    (forall st, dims_ok st -> dims_ok (post (display st))) /\
    (forall st, dims_ok st -> dims_ok (post (main e evs st))) /\
    (forall st, reachable c st -> dims_ok st) /\
    dims_ok (post (main e evs (initial_world c))) /\
    Forall store_ok (emitted (main e evs (initial_world c))).
Proof.
  intros e evs c.
  assert (H0 : dims_ok (initial_world c)) by (split; cbn; lia).
  split; [exact H0|].
  split; [intros w h st; apply (dispatch_dims_ok (Resized w h))|].
  split; [intros st; apply (dispatch_dims_ok Redisplay)|].
  split; [intros st; apply main_dims_ok|].
  split; [intros st; apply reachable_dims_ok|].
  split; [now apply main_dims_ok | apply main_store_ok].
Qed.

(** * Whole runs *)

(** ** How a run ends and what it prints *)


(** X2. The output of a run is a function of what the loader and the driver
    report: the diagnostic of the loader, or the version line followed by
    the capability diagnostic or by the driver's line.  The callbacks print
    nothing, so neither the events delivered nor the state matter. *)
Theorem output_of_run :
  forall (e : env) (evs : list glut_event) (st : world),
    stdout (emitted (main e evs st)) = program_output e.
Proof.
  intros e evs st. unfold program_output.
  destruct (reaches_loop_cases e) as [[Hv _]|[[Hv [Hf _]]|[Hv [Hf _]]]].
  - rewrite main_loader_failure by assumption. now rewrite Hv.
  - rewrite main_capability_failure by assumption.
    apply Z.eqb_neq in Hv. now rewrite Hv, Hf.
  - rewrite stdout_success by assumption.
    apply Z.eqb_neq in Hv, Hf. now rewrite Hv, Hf.
Qed.

(** X3. A run is the start-up followed by the callbacks of the events it
    dispatches: the final state is the one those callbacks produce from the
    state at the start (the start-up itself changes nothing, and a run that
    fails at start-up leaves the state as it was), and the log is the log
    of the start-up followed by theirs. *)
Theorem run_is_startup_then_callbacks :
  forall (e : env) (evs : list glut_event) (st : world),
    post (main e evs st) = post (dispatch_all (dispatched e evs) st) /\
    post (main e [] st) = st /\
    emitted (main e evs st) =
      emitted (main e [] st) ++ emitted (dispatch_all (dispatched e evs) st).
Proof.
  intros e evs st. unfold dispatched.
  destruct (reaches_loop_cases e) as [[Hv ->]|[[Hv [Hf ->]]|[Hv [Hf ->]]]].
  - rewrite !main_loader_failure by assumption.
    unfold post, emitted; cbn [fst snd dispatch_all ret].
    now rewrite app_nil_r.
  - rewrite !main_capability_failure by assumption.
    unfold post, emitted; cbn [fst snd dispatch_all ret].
    now rewrite app_nil_r.
  - rewrite !main_success by assumption.
    unfold post at 1 3, emitted at 1 3; cbn [fst snd].
    split; [reflexivity | split; [reflexivity|]].
    cbn [dispatch_all ret emitted snd]. rewrite app_nil_r.
    now rewrite <- !app_assoc.
Qed.

(** ** Helpers on whole runs *)

Lemma main_post (e : env) (evs : list glut_event) (st : world) :
  post (main e evs st) = post (dispatch_all (dispatched e evs) st).
Proof.
  unfold dispatched.
  destruct (reaches_loop_cases e) as [[Hv ->]|[[Hv [Hf ->]]|[Hv [Hf ->]]]].
  - now rewrite main_loader_failure.
  - now rewrite main_capability_failure.
  - now rewrite main_success.
Qed.

(** The events of [main] after the call of the loader, callbacks aside. *)
Lemma main_emitted (e : env) (evs : list glut_event) (st : world) :
  exists mid,
    emitted (main e evs st) =
      startup (width st) (height st) ++ mid ++
      emitted (dispatch_all (dispatched e evs) st) /\
    loads mid = [] /\ stores mid = [] /\
    calls mid =
      (if loader_version e =? 0 then ["printf"; "exit"]
       else if GLAD_GL_VERSION_2_0 e =? 0 then ["printf"; "printf"]
       else ["printf"; "glGetString"; "glGetString"; "printf"; "glutMainLoop"]).
Proof.
  unfold dispatched.
  destruct (reaches_loop_cases e) as [[Hv ->]|[[Hv [Hf ->]]|[Hv [Hf ->]]]].
  - rewrite main_loader_failure by assumption. rewrite Hv.
    eexists. unfold emitted; cbn [snd dispatch_all ret].
    rewrite app_nil_r. repeat split.
  - rewrite main_capability_failure by assumption.
    apply Z.eqb_neq in Hv. rewrite Hv, Hf.
    eexists. unfold emitted; cbn [snd dispatch_all ret].
    rewrite app_nil_r. repeat split.
  - rewrite main_success by assumption.
    apply Z.eqb_neq in Hv, Hf. rewrite Hv, Hf.
    eexists. unfold emitted at 1; cbn [snd].
    rewrite <- app_assoc. repeat split.
Qed.

Lemma dispatch_all_app_post (evs1 evs2 : list glut_event) :
  forall st,
    post (dispatch_all (evs1 ++ evs2) st) =
    post (dispatch_all evs2 (post (dispatch_all evs1 st))).
Proof.
  induction evs1 as [|ev evs1 IH]; intros st.
  - reflexivity.
  - cbn [app]. rewrite !dispatch_all_cons_post. apply IH.
Qed.

Lemma dispatch_calls (ev : glut_event) (st : world) :
  calls (emitted (dispatch ev st)) = callback_calls ev.
Proof.
  destruct ev as [w h|]; cbn [dispatch].
  - now rewrite reshape_emitted.
  - now rewrite display_emitted.
Qed.

Lemma dispatch_all_calls (evs : list glut_event) (st : world) :
  calls (emitted (dispatch_all evs st)) = flat_map callback_calls evs.
Proof. apply dispatch_all_flat_map. intros ev st'. apply dispatch_calls. Qed.

Lemma calls_app (t1 t2 : list event) : calls (t1 ++ t2) = calls t1 ++ calls t2.
Proof. apply flat_map_app. Qed.

Lemma count_calls_app (fn : string) (t1 t2 : list event) :
  count_calls fn (t1 ++ t2) = (count_calls fn t1 + count_calls fn t2)%nat.
Proof. unfold count_calls. now rewrite calls_app, filter_app, length_app. Qed.

Lemma gl_calls_app (t1 t2 : list event) :
  gl_calls (t1 ++ t2) = gl_calls t1 ++ gl_calls t2.
Proof. unfold gl_calls. now rewrite calls_app, filter_app. Qed.

(** ** OpenGL entry points and the loader *)

(** X4. No OpenGL entry point is called before the loader has been called (the
    start-up, which ends with the loader's call, has none), and none at
    all unless the loader succeeded and the capability check passed; then
    the first two are the calls of [glGetString]. *)
Theorem gl_calls_only_after_checks :
  forall (e : env) (evs : list glut_event) (st : world),
    gl_calls (startup (width st) (height st)) = [] /\
    exists rest,
      emitted (main e evs st) = startup (width st) (height st) ++ rest /\
      gl_calls rest =
        (if reaches_loop e
         then "glGetString" :: "glGetString" ::
              gl_calls (emitted (dispatch_all evs st))
         else []).
Proof.
  intros e evs st. split; [reflexivity|].
  destruct (reaches_loop_cases e) as [[Hv ->]|[[Hv [Hf ->]]|[Hv [Hf ->]]]].
  - rewrite main_loader_failure by assumption. eexists. split; reflexivity.
  - rewrite main_capability_failure by assumption. eexists. split; reflexivity.
  - rewrite main_success by assumption. eexists.
    unfold emitted at 1; cbn [snd]. split; [reflexivity|].
    now rewrite gl_calls_app.
Qed.

(** ** Frames *)

Lemma count_callback_calls (fn : string) (evs : list glut_event) :
  (forall w h, filter (String.eqb fn) (callback_calls (Resized w h)) = []) ->
  length (filter (String.eqb fn) (callback_calls Redisplay)) = 1%nat ->
  length (filter (String.eqb fn) (flat_map callback_calls evs)) = redisplays evs.
Proof.
  intros Hresize Hdisplay. unfold redisplays.
  induction evs as [|[w h|] evs IH]; cbn [flat_map filter].
  - reflexivity.
  - now rewrite filter_app, length_app, Hresize, IH.
  - rewrite filter_app, length_app, Hdisplay, IH. reflexivity.
Qed.

Lemma count_calls_run (fn : string) (e : env) (evs : list glut_event) (st : world) :
  (forall w h, filter (String.eqb fn) (callback_calls (Resized w h)) = []) ->
  length (filter (String.eqb fn) (callback_calls Redisplay)) = 1%nat ->
  filter (String.eqb fn)
    (calls (startup 0 0) ++
     ["printf"; "exit"; "glGetString"; "glutMainLoop"]) = [] ->
  count_calls fn (emitted (main e evs st)) = redisplays (dispatched e evs).
Proof.
  intros Hresize Hdisplay Hstart.
  destruct (main_emitted e evs st) as [mid [-> [_ [_ Hmid]]]].
  rewrite !count_calls_app.
  unfold count_calls at 3. rewrite dispatch_all_calls.
  rewrite (count_callback_calls fn _ Hresize Hdisplay).
  assert (Hs : count_calls fn (startup (width st) (height st)) = 0%nat).
  { unfold count_calls. change (calls (startup (width st) (height st)))
      with (calls (startup 0 0)).
    rewrite filter_app in Hstart. apply app_eq_nil in Hstart as [-> _].
    reflexivity. }
  assert (Hm : count_calls fn mid = 0%nat).
  { unfold count_calls. rewrite Hmid.
    rewrite filter_app in Hstart. apply app_eq_nil in Hstart as [_ Hstart].
    cbn [filter] in Hstart.
    destruct (loader_version e =? 0); [|destruct (GLAD_GL_VERSION_2_0 e =? 0)];
      cbn [filter];
      destruct (String.eqb fn "printf"), (String.eqb fn "exit"),
        (String.eqb fn "glGetString"), (String.eqb fn "glutMainLoop");
      try discriminate; reflexivity. }
  rewrite Hs, Hm. reflexivity.
Qed.

(** X5. Over a whole run the buffers are cleared, swapped, and a further
    redisplay requested exactly once per display event dispatched: a run
    that fails at start-up does none of the three, and a resize event adds
    none. *)
Theorem one_frame_per_display_event :
  forall (e : env) (evs : list glut_event) (st : world),
    let t := emitted (main e evs st) in
    count_calls "glClear" t = redisplays (dispatched e evs) /\
    count_calls "glutSwapBuffers" t = redisplays (dispatched e evs) /\
    count_calls "glutPostRedisplay" t = redisplays (dispatched e evs).
Proof.
  intros e evs st t. subst t.
  repeat split; apply count_calls_run; reflexivity.
Qed.

(** ** The clear color of a frame *)

Lemma clears_follow_color_app (t1 t2 : list event) :
  forall prev,
    clears_follow_color prev t1 ->
    (forall p, clears_follow_color p t2) ->
    clears_follow_color prev (t1 ++ t2).
Proof.
  induction t1 as [|e t1 IH]; intros prev H1 H2; cbn [app].
  - apply H2.
  - destruct H1 as [He H1]. split; [exact He | now apply IH].
Qed.

Lemma no_clear_follows_color (t : list event) :
  Forall (fun e => ~ is_call "glClear" e) t ->
  forall prev, clears_follow_color prev t.
Proof.
  induction 1 as [|e t He _ IH]; intros prev; cbn.
  - exact I.
  - split; [intros Hc; now destruct (He Hc) | apply IH].
Qed.

Lemma dispatch_clears_follow_color (ev : glut_event) (st : world) :
  forall prev, clears_follow_color prev (emitted (dispatch ev st)).
Proof.
  intros prev. destruct ev as [w h|]; cbn [dispatch].
  - rewrite reshape_emitted. apply no_clear_follows_color.
    repeat constructor; cbn; try tauto; discriminate.
  - rewrite display_emitted. cbn.
    repeat split; try tauto; try discriminate.
Qed.

Lemma dispatch_all_clears_follow_color (evs : list glut_event) :
  forall st prev, clears_follow_color prev (emitted (dispatch_all evs st)).
Proof.
  induction evs as [|ev evs IH]; intros st prev.
  - exact I.
  - rewrite dispatch_all_cons_emitted. apply clears_follow_color_app.
    + apply dispatch_clears_follow_color.
    + intros p. apply IH.
Qed.

(** X6. In every run each call of [glClear] comes directly after
    [glClearColor(1.0f, 0.2f, 0.7f, 1.0f)]: a frame is always cleared with
    the color [display] selects, never with the transparent black that
    [reshape] leaves in the context. *)
Theorem frames_cleared_with_display_color :
  forall (e : env) (evs : list glut_event) (st : world),
    clears_follow_color None (emitted (main e evs st)).
Proof.
  intros e evs st.
  destruct (main_emitted e evs st) as [mid [-> [_ [_ Hmid]]]].
  apply clears_follow_color_app.
  - apply no_clear_follows_color. repeat constructor; cbn; try tauto; discriminate.
  - intros p. apply clears_follow_color_app.
    + apply no_clear_follows_color. apply Forall_forall.
      intros [x v|x v|v|fn args] Hin; cbn; try tauto.
      intros ->.
      assert (Hc : In "glClear" (calls mid)).
      { unfold calls. apply in_flat_map. eexists. split; [exact Hin|].
        cbn. tauto. }
      rewrite Hmid in Hc.
      destruct (loader_version e =? 0); [|destruct (GLAD_GL_VERSION_2_0 e =? 0)];
        cbn in Hc; intuition discriminate.
    + intros q. apply dispatch_all_clears_follow_color.
Qed.

(** ** The state the loop leaves *)

Lemma dispatch_all_dimensions (evs : list glut_event) :
  forall st,
    (width (post (dispatch_all evs st)), height (post (dispatch_all evs st))) =
    match last_resize evs with
    | Some (w, h) => (Z.max w 1, Z.max h 1)
    | None => (width st, height st)
    end.
Proof.
  induction evs as [|ev evs IH]; intros st.
  - reflexivity.
  - rewrite dispatch_all_cons_post, IH. cbn [last_resize].
    destruct (last_resize evs) as [[w h]|]; [reflexivity|].
    destruct ev as [w h|]; cbn [dispatch].
    + now rewrite reshape_post.
    + now rewrite display_post.
Qed.

(** X7. The stored dimensions after a run are those of the last resize event
    it dispatched, each clamped to at least 1, whatever came before and
    however many display events came after; with no resize event (or a run
    that fails at start-up) they are the initial 600 by 600. *)
Theorem last_resize_decides_dimensions :
  forall (e : env) (evs : list glut_event) (c : gl_context),
    let st := post (main e evs (initial_world c)) in
    (width st, height st) =
    match last_resize (dispatched e evs) with
    | Some (w, h) => (Z.max w 1, Z.max h 1)
    | None => (600, 600)
    end.
Proof.
  intros e evs c st. subst st.
  rewrite main_post, dispatch_all_dimensions. reflexivity.
Qed.

Lemma dispatch_coherent (ev : glut_event) (st : world) :
  context_coherent st -> context_coherent (post (dispatch ev st)).
Proof.
  intros [Hvp [Hdt Hcd]]. destruct ev as [w h|]; cbn [dispatch].
  - rewrite reshape_post. repeat split.
  - rewrite display_post. repeat split; cbn; assumption.
Qed.

Lemma dispatch_all_coherent (evs : list glut_event) :
  forall st, context_coherent st -> context_coherent (post (dispatch_all evs st)).
Proof.
  induction evs as [|ev evs IH]; intros st Hst.
  - exact Hst.
  - rewrite dispatch_all_cons_post. now apply IH, dispatch_coherent.
Qed.

Lemma dispatch_all_coherent_after_resize (evs : list glut_event) (w h : Z) :
  forall st, In (Resized w h) evs -> context_coherent (post (dispatch_all evs st)).
Proof.
  induction evs as [|ev evs IH]; intros st Hin.
  - destruct Hin.
  - rewrite dispatch_all_cons_post. destruct Hin as [->|Hin].
    + apply dispatch_all_coherent. cbn [dispatch]. rewrite reshape_post.
      repeat split.
    + now apply IH.
Qed.

(** X8. Once a run has dispatched a resize event, whatever the context was at
    the start, the context agrees with the stored dimensions from then on:
    the viewport is (0, 0, width, height), depth testing is enabled and the
    clear depth is 1, and later events of either kind keep it so. *)
Theorem context_coherent_after_resize :
  forall (e : env) (evs : list glut_event) (c : gl_context) (w h : Z),
    In (Resized w h) (dispatched e evs) ->
    context_coherent (post (main e evs (initial_world c))).
Proof.
  intros e evs c w h Hin. rewrite main_post.
  now apply dispatch_all_coherent_after_resize with (w := w) (h := h).
Qed.

Lemma context_coherent_after_resize_witness :
  context_coherent
    (post (main env_gl33 [Redisplay; Resized 0 (-4); Redisplay]
             (initial_world default_context))).
Proof.
  apply (context_coherent_after_resize env_gl33
           [Redisplay; Resized 0 (-4); Redisplay] default_context 0 (-4)).
  cbn. tauto.
Defined.

(** X9. The clear color the loop leaves in the context is the one of the last
    callback: transparent black after a resize event, (1.0, 0.2, 0.7, 1.0)
    after a display event, whatever events came before. *)
Theorem last_event_decides_clear_color :
  forall (evs : list glut_event) (st : world),
    (forall w h,
       color_eq (clear_color (gl (post (dispatch_all (evs ++ [Resized w h]) st))))
                (0, 0, 0, 0)%Q) /\
    color_eq (clear_color (gl (post (dispatch_all (evs ++ [Redisplay]) st))))
             (1.0, 0.2, 0.7, 1.0)%Q.
Proof.
  intros evs st. split; [intros w h|];
    rewrite dispatch_all_app_post, dispatch_all_cons_post; cbn [dispatch_all dispatch].
  - unfold ret, post at 1; cbn [fst snd]. rewrite reshape_post.
    cbn. repeat split; reflexivity.
  - unfold ret, post at 1; cbn [fst snd]. rewrite display_post.
    cbn. repeat split; reflexivity.
Qed.

(** ** Calls of [glViewport] *)

Lemma dispatch_viewport_calls_ok (ev : glut_event) (st : world) :
  Forall viewport_call_ok (emitted (dispatch ev st)).
Proof.
  destruct ev as [w h|]; cbn [dispatch].
  - rewrite reshape_emitted.
    repeat constructor; cbn; try discriminate.
    intros _. exists (Z.max w 1), (Z.max h 1). repeat split; lia.
  - rewrite display_emitted. repeat constructor; cbn; discriminate.
Qed.

Lemma dispatch_all_viewport_calls_ok (evs : list glut_event) :
  forall st, Forall viewport_call_ok (emitted (dispatch_all evs st)).
Proof.
  induction evs as [|ev evs IH]; intros st.
  - constructor.
  - rewrite dispatch_all_cons_emitted. apply Forall_app. split.
    + apply dispatch_viewport_calls_ok.
    + apply IH.
Qed.

(** X10. Every call of [glViewport] in a run asks for a rectangle at the origin
    whose width and height are at least 1, whatever sizes the toolkit
    reports (zero and negative ones included): the program never passes
    OpenGL a size it would reject. *)
Theorem viewport_calls_never_rejected :
  forall (e : env) (evs : list glut_event) (st : world),
    Forall viewport_call_ok (emitted (main e evs st)).
Proof.
  intros e evs st.
  destruct (main_emitted e evs st) as [mid [-> [_ [_ Hmid]]]].
  rewrite !Forall_app. repeat split.
  - repeat constructor; cbn; discriminate.
  - apply Forall_forall. intros [x v|x v|v|fn args] Hin; cbn; try exact I.
    intros ->.
    assert (Hc : In "glViewport" (calls mid)).
    { unfold calls. apply in_flat_map. eexists. split; [exact Hin|].
      cbn. tauto. }
    rewrite Hmid in Hc.
    destruct (loader_version e =? 0); [|destruct (GLAD_GL_VERSION_2_0 e =? 0)];
      cbn in Hc; exfalso; intuition discriminate.
  - apply dispatch_all_viewport_calls_ok.
Qed.

(** ** The version line and the loader's encoding *)

(** X11. The version line undoes the loader's encoding: when the loader returns
    major * 10 + minor, with a minor below 10, the output of the run
    starts with "OpenGL <major>.<minor>" and a line feed. *)
Theorem version_line_shows_major_minor :
  forall (e : env) (evs : list glut_event) (st : world) (major minor : Z),
    0 <= major -> 0 <= minor < 10 ->
    loader_version e = major * 10 + minor ->
    loader_version e <> 0 ->
    exists rest,
      stdout (emitted (main e evs st)) =
      (("OpenGL " ++ fmt_d major ++ "." ++ fmt_d minor ++ LF) ++ rest)%string.
Proof.
  intros e evs st major minor Hmaj Hmin Henc Hv.
  destruct (Z.eq_dec (GLAD_GL_VERSION_2_0 e) 0) as [Hf|Hf].
  - rewrite main_capability_failure by assumption.
    unfold emitted; cbn [snd].
    rewrite stdout_capability_failure, Henc, version_line_decodes by assumption.
    eexists. reflexivity.
  - rewrite stdout_success by assumption.
    rewrite Henc, version_line_decodes by assumption.
    eexists. reflexivity.
Qed.

Lemma version_line_shows_major_minor_witness :
  exists rest,
    stdout (emitted (main env_gl15 [] (initial_world default_context))) =
    (("OpenGL " ++ fmt_d 1 ++ "." ++ fmt_d 5 ++ LF) ++ rest)%string.
Proof.
  assert (Hmin : 0 <= 5 < 10) by lia.
  assert (Hmaj : 0 <= 1) by lia.
  assert (Hv : loader_version env_gl15 <> 0) by discriminate.
  exact (version_line_shows_major_minor env_gl15 [] (initial_world default_context)
           1 5 Hmaj Hmin eq_refl Hv).
Defined.
